(** * Tokenizer of the Hindi adaptation of LOLCODE

    A model of [tokenizer.h]: the token types, the [keywords] array that
    gives every token type its image, the token structures, and the
    functions the header declares ([isInteger], [isFloat], [isString],
    [isIdentifier], [isKeyword], [createToken], [acceptLexemes],
    [tokenizeLexemes]).  Strings are C strings: sequences of bytes, the
    Devanagari keywords being UTF-8 encoded. *)

From Stdlib Require Import String Ascii List Bool Arith NArith ZArith Lia.
From Stdlib Require Floats.SpecFloat.
Import ListNotations.
Local Open Scope string_scope.
Local Open Scope nat_scope.
Local Open Scope list_scope.

(** ** Token types *)

(** The enumeration [TokenType].  The constructors come in the order of the
    C enumeration, so that [tokenTypeValue] is the value C gives each. *)
Inductive TokenType : Set :=
| TT_INTEGER (* Integer literal. *)
| TT_FLOAT (* Decimal literal. *)
| TT_STRING (* String literal. *)
| TT_IDENTIFIER (* Identifier literal. *)
| TT_BOOLEAN (* Boolean literal. *)
| TT_IT (* Implicit variable. *)
| TT_ITZLIEKA (* Inherited object declaration. *)
| TT_NOOB (* Nil keyword. *)
| TT_NUMBR (* Integer keyword. *)
| TT_NUMBAR (* Decimal keyword. *)
| TT_TROOF (* Boolean keyword. *)
| TT_YARN (* String keyword. *)
| TT_BUKKIT (* Array. *)
| TT_EOF (* End of file. *)
| TT_NEWLINE (* Newline. *)
| TT_HAI (* Beginning of main block. *)
| TT_KTHXBYE (* End of main block. *)
| TT_HASA (* Variable declaration. *)
| TT_HASAN (* Variable declaration. *)
| TT_ITZA (* Variable type initialization. *)
| TT_ITZ (* Variable value initialization. *)
| TT_RNOOB (* Deallocation. *)
| TT_R (* Assignment. *)
| TT_ANYR (* User-defined function argument separator. *)
| TT_AN (* Built-in function argument separator. *)
| TT_SUMOF (* Addition. *)
| TT_DIFFOF (* Subtraction. *)
| TT_PRODUKTOF (* Multiplication. *)
| TT_QUOSHUNTOF (* Division. *)
| TT_MODOF (* Modulo. *)
| TT_BIGGROF (* Greater than. *)
| TT_SMALLROF (* Less than. *)
| TT_BOTHOF (* Logical AND. *)
| TT_EITHEROF (* Logical OR. *)
| TT_WONOF (* Logical XOR. *)
| TT_NOT (* Logical NOT. *)
| TT_MKAY (* Infinite arity argument delimiter. *)
| TT_ALLOF (* Infinite arity logical AND. *)
| TT_ANYOF (* Infinite arity logical OR. *)
| TT_BOTHSAEM (* Equality. *)
| TT_DIFFRINT (* Inequality. *)
| TT_MAEK (* Cast. *)
| TT_A (* Cast target separator. *)
| TT_ISNOWA (* In-place cast. *)
| TT_VISIBLE (* Print. *)
| TT_INVISIBLE (* Print to standard error. *)
| TT_SMOOSH (* String concatenation. *)
| TT_BANG (* Exclamation point (!) *)
| TT_GIMMEH (* Input. *)
| TT_ORLY (* Conditional. *)
| TT_YARLY (* True branch. *)
| TT_MEBBE (* Else branch. *)
| TT_NOWAI (* False branch. *)
| TT_OIC (* Conditional and switch delimiter. *)
| TT_WTF (* Switch. *)
| TT_OMG (* Case. *)
| TT_OMGWTF (* Default case. *)
| TT_GTFO (* Break or return without value. *)
| TT_IMINYR (* Loop beginning. *)
| TT_UPPIN (* Auto increment loop variable. *)
| TT_NERFIN (* Auto decrement loop variable. *)
| TT_YR (* Function name delimiter. *)
| TT_TIL (* Do until. *)
| TT_WILE (* Do while. *)
| TT_IMOUTTAYR (* Loop ending. *)
| TT_HOWIZ (* Function definition beginning. *)
| TT_IZ (* Function scope delimiter. *)
| TT_IFUSAYSO (* Function definition end. *)
| TT_FOUNDYR (* Return with value. *)
| TT_SRS (* Indirect variable access. *)
| TT_APOSTROPHEZ (* Array slot access ('Z). *)
| TT_OHAIIM (* Alternate array declaration. *)
| TT_IMLIEK (* Alternate inherited object declaration. *)
| TT_KTHX (* End of alternate array declaration. *)
| TT_ENDOFTOKENS (* Sentinel end of this enum -- don't move it! *).

(** The integer value of each enumeration constant. *)
Definition tokenTypeValue (t : TokenType) : nat :=
  match t with
  | TT_INTEGER => 0
  | TT_FLOAT => 1
  | TT_STRING => 2
  | TT_IDENTIFIER => 3
  | TT_BOOLEAN => 4
  | TT_IT => 5
  | TT_ITZLIEKA => 6
  | TT_NOOB => 7
  | TT_NUMBR => 8
  | TT_NUMBAR => 9
  | TT_TROOF => 10
  | TT_YARN => 11
  | TT_BUKKIT => 12
  | TT_EOF => 13
  | TT_NEWLINE => 14
  | TT_HAI => 15
  | TT_KTHXBYE => 16
  | TT_HASA => 17
  | TT_HASAN => 18
  | TT_ITZA => 19
  | TT_ITZ => 20
  | TT_RNOOB => 21
  | TT_R => 22
  | TT_ANYR => 23
  | TT_AN => 24
  | TT_SUMOF => 25
  | TT_DIFFOF => 26
  | TT_PRODUKTOF => 27
  | TT_QUOSHUNTOF => 28
  | TT_MODOF => 29
  | TT_BIGGROF => 30
  | TT_SMALLROF => 31
  | TT_BOTHOF => 32
  | TT_EITHEROF => 33
  | TT_WONOF => 34
  | TT_NOT => 35
  | TT_MKAY => 36
  | TT_ALLOF => 37
  | TT_ANYOF => 38
  | TT_BOTHSAEM => 39
  | TT_DIFFRINT => 40
  | TT_MAEK => 41
  | TT_A => 42
  | TT_ISNOWA => 43
  | TT_VISIBLE => 44
  | TT_INVISIBLE => 45
  | TT_SMOOSH => 46
  | TT_BANG => 47
  | TT_GIMMEH => 48
  | TT_ORLY => 49
  | TT_YARLY => 50
  | TT_MEBBE => 51
  | TT_NOWAI => 52
  | TT_OIC => 53
  | TT_WTF => 54
  | TT_OMG => 55
  | TT_OMGWTF => 56
  | TT_GTFO => 57
  | TT_IMINYR => 58
  | TT_UPPIN => 59
  | TT_NERFIN => 60
  | TT_YR => 61
  | TT_TIL => 62
  | TT_WILE => 63
  | TT_IMOUTTAYR => 64
  | TT_HOWIZ => 65
  | TT_IZ => 66
  | TT_IFUSAYSO => 67
  | TT_FOUNDYR => 68
  | TT_SRS => 69
  | TT_APOSTROPHEZ => 70
  | TT_OHAIIM => 71
  | TT_IMLIEK => 72
  | TT_KTHX => 73
  | TT_ENDOFTOKENS => 74
  end.

(** All enumeration constants, by increasing value. *)
Definition tokenTypes : list TokenType :=
  [TT_INTEGER; TT_FLOAT; TT_STRING; TT_IDENTIFIER; TT_BOOLEAN; TT_IT;
   TT_ITZLIEKA; TT_NOOB; TT_NUMBR; TT_NUMBAR; TT_TROOF; TT_YARN; TT_BUKKIT;
   TT_EOF; TT_NEWLINE; TT_HAI; TT_KTHXBYE; TT_HASA; TT_HASAN; TT_ITZA;
   TT_ITZ; TT_RNOOB; TT_R; TT_ANYR; TT_AN; TT_SUMOF; TT_DIFFOF;
   TT_PRODUKTOF; TT_QUOSHUNTOF; TT_MODOF; TT_BIGGROF; TT_SMALLROF;
   TT_BOTHOF; TT_EITHEROF; TT_WONOF; TT_NOT; TT_MKAY; TT_ALLOF; TT_ANYOF;
   TT_BOTHSAEM; TT_DIFFRINT; TT_MAEK; TT_A; TT_ISNOWA; TT_VISIBLE;
   TT_INVISIBLE; TT_SMOOSH; TT_BANG; TT_GIMMEH; TT_ORLY; TT_YARLY;
   TT_MEBBE; TT_NOWAI; TT_OIC; TT_WTF; TT_OMG; TT_OMGWTF; TT_GTFO;
   TT_IMINYR; TT_UPPIN; TT_NERFIN; TT_YR; TT_TIL; TT_WILE; TT_IMOUTTAYR;
   TT_HOWIZ; TT_IZ; TT_IFUSAYSO; TT_FOUNDYR; TT_SRS; TT_APOSTROPHEZ;
   TT_OHAIIM; TT_IMLIEK; TT_KTHX; TT_ENDOFTOKENS].

(** The array [keywords]: the image of each token type, at the index that
    is the type's value.  Types without an image hold the empty string. *)
Definition keywords : list string :=
  [ "" (* TT_INTEGER *)
  ; "" (* TT_FLOAT *)
  ; "" (* TT_STRING *)
  ; "" (* TT_IDENTIFIER *)
  ; "" (* TT_BOOLEAN *)
  ; "ताज़ा" (* TT_IT *)
  ; "छापों" (* TT_ITZLIEKA *)
  ; "खाली" (* TT_NOOB *)
  ; "संख्या" (* TT_NUMBR *)
  ; "दशमलव" (* TT_NUMBAR *)
  ; "हाना" (* TT_TROOF *)
  ; "अक्षरमाला" (* TT_YARN *)
  ; "माला" (* TT_BUKKIT *)
  ; "" (* TT_EOF *)
  ; "" (* TT_NEWLINE *)
  ; "नमस्ते" (* TT_HAI *)
  ; "अलविदा" (* TT_KTHXBYE *)
  ; "चीज़" (* TT_HASA *)
  ; "चीज़" (* TT_HASAN *)
  ; "है एक" (* TT_ITZA *)
  ; "है" (* TT_ITZ *)
  ; "है खाली" (* TT_RNOOB *)
  ; "अब है" (* TT_R *)
  ; "और जानकारी" (* TT_ANYR *)
  ; "और" (* TT_AN *)
  ; "जोड़" (* TT_SUMOF *)
  ; "घाटा" (* TT_DIFFOF *)
  ; "गुणा" (* TT_PRODUKTOF *)
  ; "भाग" (* TT_QUOSHUNTOF *)
  ; "बाकी" (* TT_MODOF *)
  ; "बड़ा" (* TT_BIGGROF *)
  ; "छोटा" (* TT_SMALLROF *)
  ; "दोनों" (* TT_BOTHOF *)
  ; "कोई एक" (* TT_EITHEROF *)
  ; "सिर्फ़ एक" (* TT_WONOF *)
  ; "नहीं" (* TT_NOT *)
  ; "बस" (* TT_MKAY *)
  ; "सब" (* TT_ALLOF *)
  ; "कुछ" (* TT_ANYOF *)
  ; "बराबर" (* TT_BOTHSAEM *)
  ; "अलग" (* TT_DIFFRINT *)
  ; "बनाओ" (* TT_MAEK *)
  ; "एक" (* TT_A *)
  ; "अब बन गया" (* TT_ISNOWA *)
  ; "दिखाओ" (* TT_VISIBLE *)
  ; "गलती" (* TT_INVISIBLE *)
  ; "जोड़ो" (* TT_SMOOSH *)
  ; "!" (* TT_BANG *)
  ; "दो" (* TT_GIMMEH *)
  ; "क्या?" (* TT_ORLY *)
  ; "हाँ" (* TT_YARLY *)
  ; "या फिर" (* TT_MEBBE *)
  ; "ना" (* TT_NOWAI *)
  ; "अंत" (* TT_OIC *)
  ; "पेड़" (* TT_WTF *)
  ; "शाखा" (* TT_OMG *)
  ; "नही तो" (* TT_OMGWTF *)
  ; "तोड़ो" (* TT_GTFO *)
  ; "शुरू करो" (* TT_IMINYR *)
  ; "बढ़ाओ" (* TT_UPPIN *)
  ; "बढ़ाओ" (* TT_NERFIN *)
  ; "यह" (* TT_YR *)
  ; "जब तक नहीं" (* TT_TIL *)
  ; "जब तक" (* TT_WILE *)
  ; "खतम करो" (* TT_IMOUTTAYR *)
  ; "काम" (* TT_HOWIZ *)
  ; "बुलाओ" (* TT_IZ *)
  ; "कामखतम" (* TT_IFUSAYSO *)
  ; "वापस" (* TT_FOUNDYR *)
  ; "सरस" (* TT_SRS *)
  ; "'का" (* TT_APOSTROPHEZ *)
  ; "O HAI IM" (* TT_OHAIIM *)
  ; "IM LIEK" (* TT_IMLIEK *)
  ; "खतम" (* TT_KTHX *)
  ; "" (* TT_ENDOFTOKENS *)
  ].

(** The image of a token type: [keywords[t]]. *)
Definition keywordOf (t : TokenType) : string :=
  nth (tokenTypeValue t) keywords "".

(** ** Token structures *)

(** The range of [long long], a 64-bit signed integer. *)
Definition LLONG_MIN : Z := (- 2 ^ 63)%Z.
Definition LLONG_MAX : Z := (2 ^ 63 - 1)%Z.

Definition inLongLong (v : Z) : bool :=
  ((LLONG_MIN <=? v) && (v <=? LLONG_MAX))%Z.

(** A [long long]: an integer of that range. *)
Record LongLong : Type := mkLongLong
  { ll_value : Z
  ; ll_range : inLongLong ll_value = true }.

(** The format of [float], IEEE 754 binary32: 24 bits of precision and
    exponents below 128. *)
Definition FLT_PREC : Z := 24%Z.
Definition FLT_EMAX : Z := 128%Z.

Definition inFloat (f : SpecFloat.spec_float) : bool :=
  SpecFloat.valid_binary FLT_PREC FLT_EMAX f.

(** A [float]: a zero, an infinity, a NaN or a finite number of that
    format. *)
Record CFloat : Type := mkCFloat
  { float_value : SpecFloat.spec_float
  ; float_valid : inFloat float_value = true }.

(** The union [TokenData]: integer data [i] (a [long long]) or decimal data
    [f] (a [float]). *)
Inductive TokenData : Type :=
| TD_i (i : LongLong)
| TD_f (f : CFloat).

(** The structure [Token].  [data] is [None] as long as the union was never
    written. *)
Record Token : Type := mkToken
  { type : TokenType
  ; data : option TokenData
  ; image : string
  ; fname : string
  ; line : N }.

(** Modelled from the spec: the structure [Lexeme] of [lexer.h], which is
    not in the sources: the text of a lexeme with the file name and the line
    number it was read at.  A [LexemeList] is the ordered list of them. *)
Record Lexeme : Type := mkLexeme
  { lex_image : string
  ; lex_fname : string
  ; lex_line : N }.

Definition LexemeList : Type := list Lexeme.

(** ** Characters and words *)

Definition charBetween (lo hi : nat) (c : ascii) : bool :=
  ((lo <=? nat_of_ascii c) && (nat_of_ascii c <=? hi))%nat.

Definition isDigit (c : ascii) : bool := charBetween 48 57 c.

Definition isAlpha (c : ascii) : bool :=
  charBetween 65 90 c || charBetween 97 122 c.

Definition isAlnum (c : ascii) : bool := isAlpha c || isDigit c.

(** White space as C's [isspace] has it. *)
Definition isSpace (c : ascii) : bool :=
  (nat_of_ascii c =? 32)%nat || charBetween 9 13 c.

Definition quoteChar : ascii := ascii_of_nat 34.
Definition newlineString : string := String (ascii_of_nat 10) EmptyString.

(** The fields of a string between its white-space characters, empty ones
    included. *)
Fixpoint fields (s : string) : list string :=
  match s with
  | EmptyString => [EmptyString]
  | String c rest =>
      if isSpace c then EmptyString :: fields rest
      else match fields rest with
           | w :: ws => String c w :: ws
           | [] => [String c EmptyString]
           end
  end.

Definition nonEmpty (s : string) : bool :=
  match s with EmptyString => false | String _ _ => true end.

(** The words of a phrase: its maximal runs of characters that are not white
    space. *)
Definition words (s : string) : list string := filter nonEmpty (fields s).

Definition wordCount (s : string) : nat := length (words s).

(** The code points a UTF-8 byte string encodes ([None] when it is not
    well-formed UTF-8 of up to three bytes per character, which covers the
    Basic Multilingual Plane). *)
Fixpoint codePoints (bs : list N) : option (list N) :=
  match bs with
  | [] => Some []
  | b0 :: r0 =>
      if (b0 <? 128)%N then option_map (cons b0) (codePoints r0)
      else if ((192 <=? b0) && (b0 <? 224))%N then
        match r0 with
        | b1 :: r1 =>
            if ((128 <=? b1) && (b1 <? 192))%N
            then option_map (cons ((b0 - 192) * 64 + (b1 - 128))%N)
                            (codePoints r1)
            else None
        | [] => None
        end
      else if ((224 <=? b0) && (b0 <? 240))%N then
        match r0 with
        | b1 :: b2 :: r2 =>
            if ((128 <=? b1) && (b1 <? 192) && (128 <=? b2) && (b2 <? 192))%N
            then option_map
                   (cons ((b0 - 224) * 4096 + (b1 - 128) * 64 + (b2 - 128))%N)
                   (codePoints r2)
            else None
        | _ => None
        end
      else None
  end.

Definition bytesOf (s : string) : list N :=
  map N_of_ascii (list_ascii_of_string s).

(** The Devanagari block of Unicode, U+0900 to U+097F. *)
Definition isDevanagari (cp : N) : bool := ((2304 <=? cp) && (cp <=? 2431))%N.

(** A word written in Devanagari: one code point or more, all of the
    block. *)
Definition devanagariWord (w : string) : bool :=
  match codePoints (bytesOf w) with
  | Some (cp :: cps) => forallb isDevanagari (cp :: cps)
  | _ => false
  end.

(** A phrase of one or more words, all written in Devanagari. *)
Definition devanagariPhrase (p : string) : bool :=
  match words p with
  | [] => false
  | w :: ws => forallb devanagariWord (w :: ws)
  end.

(** ** Literal classifiers *)

Fixpoint allDigits (s : string) : bool :=
  match s with
  | EmptyString => true
  | String c rest => isDigit c && allDigits rest
  end.

(** One or more decimal digits and nothing else. *)
Definition digitRun (s : string) : bool := nonEmpty s && allDigits s.

Definition hasMinus (s : string) : bool :=
  match s with
  | String c _ => Ascii.eqb c "-"
  | EmptyString => false
  end.

(** The text without its leading minus sign, when it has one. *)
Definition stripMinus (s : string) : string :=
  match s with
  | String c rest => if Ascii.eqb c "-" then rest else s
  | EmptyString => s
  end.

(** The text before and after the first decimal point. *)
Fixpoint splitAtDot (s : string) : option (string * string) :=
  match s with
  | EmptyString => None
  | String c rest =>
      if Ascii.eqb c "." then Some (EmptyString, rest)
      else match splitAtDot rest with
           | Some (a, b) => Some (String c a, b)
           | None => None
           end
  end.

(** Modelled from the spec: the body of [isInteger], declared in
    [tokenizer.h] and defined outside the sources: an optional leading minus
    sign followed by one or more decimal digits. *)
Definition isInteger (text : string) : bool := digitRun (stripMinus text).

(** Modelled from the spec: the body of [isFloat]: an optional leading minus
    sign, one or more digits, one decimal point, one or more digits. *)
Definition isFloat (text : string) : bool :=
  match splitAtDot (stripMinus text) with
  | Some (a, b) => digitRun a && digitRun b
  | None => false
  end.

(** What follows the opening quote of a string: characters that are no
    quote, up to a closing quote that ends the text. *)
Fixpoint closesString (body : string) : bool :=
  match body with
  | EmptyString => false
  | String c rest =>
      if Ascii.eqb c quoteChar then negb (nonEmpty rest)
      else closesString rest
  end.

(** Modelled from the spec: the body of [isString]: the text begins and ends
    with a double quote and holds no quote in between.  No way of escaping
    a quote is defined, so every quote in between counts. *)
Definition isString (text : string) : bool :=
  match text with
  | String c body => Ascii.eqb c quoteChar && closesString body
  | EmptyString => false
  end.

Definition isIdentChar (c : ascii) : bool := isAlnum c || Ascii.eqb c "_".

Fixpoint allIdentChars (s : string) : bool :=
  match s with
  | EmptyString => true
  | String c rest => isIdentChar c && allIdentChars rest
  end.

(** Modelled from the spec: the body of [isIdentifier]: a letter or an
    underscore, followed by letters, digits and underscores.  Letters are
    those of C's [isalpha] on a byte. *)
Definition isIdentifier (text : string) : bool :=
  match text with
  | String c rest => (isAlpha c || Ascii.eqb c "_") && allIdentChars rest
  | EmptyString => false
  end.

(** The four literal shapes the classifiers tell apart. *)
Inductive LiteralShape : Set :=
| IntegerShape
| FloatShape
| StringShape
| IdentifierShape.

(** The token type of the literals of a shape. *)
Definition shapeType (shape : LiteralShape) : TokenType :=
  match shape with
  | IntegerShape => TT_INTEGER
  | FloatShape => TT_FLOAT
  | StringShape => TT_STRING
  | IdentifierShape => TT_IDENTIFIER
  end.

(** Modelled from the spec: the order in which the builder tries the
    literal shapes, which is part of the body of [tokenizeLexemes]: the
    numeric shapes first and the identifier last. *)
Definition literalShape (text : string) : option LiteralShape :=
  if isInteger text then Some IntegerShape
  else if isFloat text then Some FloatShape
  else if isString text then Some StringShape
  else if isIdentifier text then Some IdentifierShape
  else None.

(** Modelled from the spec: the newline lexeme the lexer makes of a line
    break, which the builder turns into a newline token: its text is the
    line feed. *)
Definition isNewline (text : string) : bool := String.eqb text newlineString.

(** ** Matching lexemes against a phrase *)

(** The [n] lexemes from index [start] on (fewer when the list ends). *)
Definition window (ls : LexemeList) (start n : nat) : LexemeList :=
  firstn n (skipn start ls).

(** The texts of lexemes, joined by single spaces. *)
Definition spell (ws : LexemeList) : string :=
  String.concat " " (map lex_image ws).

(** Modelled from the spec: the search inside [acceptLexemes]: the first of
    the window sizes [n], [n + 1], ..., [n + count - 1] whose window spells
    the phrase, or zero. *)
Fixpoint searchWindow (ls : LexemeList) (start : nat) (phrase : string)
    (n count : nat) : nat :=
  match count with
  | 0 => 0
  | S count' =>
      if String.eqb (spell (window ls start n)) phrase then n
      else searchWindow ls start phrase (S n) count'
  end.

(** Modelled from the spec: the body of [acceptLexemes]: the number of
    consecutive lexemes from [start] on whose texts, joined by single
    spaces, are the phrase; zero when there is none, a window never running
    past the end of the list. *)
Definition acceptLexemes (ls : LexemeList) (start : nat) (phrase : string)
    : nat :=
  searchWindow ls start phrase 1 (length ls - start).

(** ** Recognising keywords *)

(** The token types that are keywords: all but the literal types, the end of
    file, the newline and the sentinel that ends the enumeration. *)
Definition isKeywordType (t : TokenType) : bool :=
  match t with
  | TT_INTEGER | TT_FLOAT | TT_STRING | TT_IDENTIFIER | TT_BOOLEAN
  | TT_EOF | TT_NEWLINE | TT_ENDOFTOKENS => false
  | _ => true
  end.

Definition KeywordEntry : Type := (TokenType * string)%type.

(** The keyword table [isKeyword] scans: the entries of [keywords] for the
    keyword types, in the order of the array.  The entries of the other
    types are empty strings; [scanKeywords_whole_array] shows that scanning
    them too changes nothing as long as no lexeme has an empty text. *)
Definition keywordTable : list KeywordEntry :=
  map (fun t => (t, keywordOf t)) (filter isKeywordType tokenTypes).

(** The number of lexemes the phrase of an entry matches at [start]. *)
Definition matchedBy (ls : LexemeList) (start : nat) (e : KeywordEntry)
    : nat :=
  acceptLexemes ls start (snd e).

Definition bestLength (best : option (KeywordEntry * nat)) : nat :=
  match best with
  | Some (_, n) => n
  | None => 0
  end.

(** Modelled from the spec: the loop of [isKeyword]: one pass over a table
    in its order, keeping the entry matched by the most lexemes so far; a
    later entry replaces it only when it matches strictly more. *)
Fixpoint scanKeywords (table : list KeywordEntry) (ls : LexemeList)
    (start : nat) (best : option (KeywordEntry * nat))
    : option (KeywordEntry * nat) :=
  match table with
  | [] => best
  | e :: rest =>
      let n := matchedBy ls start e in
      scanKeywords rest ls start
        (if bestLength best <? n then Some (e, n) else best)
  end.

(** Modelled from the spec: the body of [isKeyword]: the keyword matched at
    [start] by the most lexemes, the first of the table among equals, as a
    token whose image is the phrase and whose file name and line are those
    of the first lexeme matched, with the number of lexemes matched; [None]
    when no keyword matches. *)
Definition isKeyword (ls : LexemeList) (start : nat) : option (Token * nat) :=
  match scanKeywords keywordTable ls start None, nth_error ls start with
  | Some ((kind, phrase), n), Some first =>
      Some (mkToken kind None phrase (lex_fname first) (lex_line first), n)
  | _, _ => None
  end.

(** ** Creating tokens *)

(** Modelled from the spec: the errors of [error.h], which is not in the
    sources, as far as the tokenizer raises them; each names the text, the
    file and the line of the lexeme at fault. *)
Inductive TokenizeError : Type :=
| UnrecognizedLexeme (text file : string) (at_line : N)
| NumericOverflow (text file : string) (at_line : N)
| InternalInconsistency (text file : string) (at_line : N).

(** The number a run of decimal digits denotes, after the digits [acc]
    stands for. *)
Fixpoint digitsValue (s : string) (acc : N) : N :=
  match s with
  | EmptyString => acc
  | String c rest => digitsValue rest (10 * acc + (N_of_ascii c - 48))%N
  end.

Definition signed (text : string) (magnitude : N) : Z :=
  if hasMinus text then (- Z.of_N magnitude)%Z else Z.of_N magnitude.

Definition decodeInteger (text : string) : option Z :=
  if isInteger text
  then Some (signed text (digitsValue (stripMinus text) 0))
  else None.

(** An integer as a [long long], when it is in the range. *)
Definition toLongLong (v : Z) : option LongLong :=
  match inLongLong v as b return inLongLong v = b -> option LongLong with
  | true => fun H => Some (mkLongLong v H)
  | false => fun _ => None
  end eq_refl.

(** A number as a [float], when it is one of the format. *)
Definition toCFloat (f : SpecFloat.spec_float) : option CFloat :=
  match inFloat f as b return inFloat f = b -> option CFloat with
  | true => fun H => Some (mkCFloat f H)
  | false => fun _ => None
  end eq_refl.

Definition positiveOf (n : N) : positive :=
  match n with
  | Npos p => p
  | N0 => 1%positive
  end.

(** The [float] nearest to [digits / scale], ties to the even mantissa;
    numbers too large become an infinity, numbers too small a zero. *)
Definition roundDecimal (negative : bool) (digits scale : N)
    : SpecFloat.spec_float :=
  match digits with
  | N0 => SpecFloat.S754_zero negative
  | Npos m =>
      SpecFloat.SFdiv FLT_PREC FLT_EMAX
        (SpecFloat.S754_finite negative m 0)
        (SpecFloat.S754_finite false (positiveOf scale) 0)
  end.

Definition decodeFloat (text : string) : option CFloat :=
  match splitAtDot (stripMinus text) with
  | Some (a, b) =>
      if digitRun a && digitRun b
      then let scale := (10 ^ N.of_nat (String.length b))%N in
           toCFloat (roundDecimal (hasMinus text)
                       (digitsValue a 0 * scale + digitsValue b 0) scale)
      else None
  | None => None
  end.

(** Modelled from the spec: the body of [createToken] at the four literal
    types, the ones the builder creates tokens of: an integer token holds
    the decoded integer, which must fit a [long long]; a float token holds
    the decoded decimal, rounded to a [float]; a string and an identifier
    hold their image alone.  Boolean tokens are left out: neither their
    spellings nor the member of the union that holds their value are
    given. *)
Definition createToken (shape : LiteralShape) (text file : string)
    (at_line : N) : TokenizeError + Token :=
  match shape with
  | IntegerShape =>
      match decodeInteger text with
      | Some v =>
          match toLongLong v with
          | Some i =>
              inr (mkToken TT_INTEGER (Some (TD_i i)) text file at_line)
          | None => inl (NumericOverflow text file at_line)
          end
      | None => inl (InternalInconsistency text file at_line)
      end
  | FloatShape =>
      match decodeFloat text with
      | Some f => inr (mkToken TT_FLOAT (Some (TD_f f)) text file at_line)
      | None => inl (InternalInconsistency text file at_line)
      end
  | StringShape => inr (mkToken TT_STRING None text file at_line)
  | IdentifierShape => inr (mkToken TT_IDENTIFIER None text file at_line)
  end.

(** Modelled from the spec: the token [tokenizeLexemes] ends every token
    list with; it stands for no source text. *)
Definition eofToken : Token := mkToken TT_EOF None "" "" 0.

(** ** Building the token list *)

(** The newline token made of a newline lexeme. *)
Definition newlineToken (lx : Lexeme) : Token :=
  mkToken TT_NEWLINE None (lex_image lx) (lex_fname lx) (lex_line lx).

(** Modelled from the spec: the states of the loop of [tokenizeLexemes].
    The builder is a machine over one cursor into the lexeme list: it scans,
    holding the tokens made so far, until it is done or has failed. *)
Inductive BuilderState : Type :=
| Scanning (cursor : nat) (tokens : list Token)
| Done (tokens : list Token)
| Failed (e : TokenizeError).

(** Modelled from the spec: one turn of the loop of [tokenizeLexemes].
    Past the last lexeme the end-of-file token closes the list.  Before it,
    a keyword is tried first and takes all the lexemes it matched; otherwise
    the lexeme is a newline or a literal, or the scan fails on it and the
    tokens made so far are dropped. *)
Definition step (ls : LexemeList) (s : BuilderState) : BuilderState :=
  match s with
  | Scanning cursor tokens =>
      match nth_error ls cursor with
      | None => Done (tokens ++ [eofToken])
      | Some lx =>
          let text := lex_image lx in
          match isKeyword ls cursor with
          | Some (tok, n) => Scanning (cursor + n) (tokens ++ [tok])
          | None =>
              if isNewline text then
                Scanning (S cursor) (tokens ++ [newlineToken lx])
              else
                match literalShape text with
                | Some shape =>
                    match
                      createToken shape text (lex_fname lx) (lex_line lx)
                    with
                    | inr tok => Scanning (S cursor) (tokens ++ [tok])
                    | inl e => Failed e
                    end
                | None =>
                    Failed (UnrecognizedLexeme text (lex_fname lx)
                              (lex_line lx))
                end
          end
      end
  | Done _ | Failed _ => s
  end.

Fixpoint run (n : nat) (ls : LexemeList) (s : BuilderState) : BuilderState :=
  match n with
  | 0 => s
  | S n' => run n' ls (step ls s)
  end.

(** Modelled from the spec: the body of [tokenizeLexemes]: the machine run
    from the first lexeme on.  Its last state is the result: [Done] with
    the token list, or [Failed] and no token list.  Every transition of a
    scanning machine moves the cursor forward, so one transition per lexeme
    and one more to close the list are enough, as
    [tokenizeLexemes_terminates] proves. *)
Definition tokenizeLexemes (ls : LexemeList) : BuilderState :=
  run (S (length ls)) ls (Scanning 0 []).

Definition isEOF (t : Token) : bool :=
  match type t with
  | TT_EOF => true
  | _ => false
  end.

(** [n] lexemes from [start] on, all within the list, spell the phrase. *)
Definition Spells (ls : LexemeList) (start : nat) (phrase : string)
    (n : nat) : Prop :=
  0 < n /\ start + n <= length ls /\ spell (window ls start n) = phrase.

(** The token types whose entry in [keywords] is the empty string. *)
Definition imagelessTypes : list TokenType :=
  [TT_INTEGER; TT_FLOAT; TT_STRING; TT_IDENTIFIER; TT_BOOLEAN;
   TT_EOF; TT_NEWLINE; TT_ENDOFTOKENS].

(** The tokens the builder makes of the lexemes of a list: a keyword token
    recognised at some index, the newline token of a newline lexeme, or the
    token created for a lexeme of a literal shape. *)
Inductive Emitted (ls : LexemeList) (tok : Token) : Prop :=
| emitted_keyword (cursor n : nat) :
    isKeyword ls cursor = Some (tok, n) -> Emitted ls tok
| emitted_newline (lx : Lexeme) :
    In lx ls -> isNewline (lex_image lx) = true -> tok = newlineToken lx ->
    Emitted ls tok
| emitted_literal (lx : Lexeme) (shape : LiteralShape) :
    In lx ls -> literalShape (lex_image lx) = Some shape ->
    createToken shape (lex_image lx) (lex_fname lx) (lex_line lx) = inr tok ->
    Emitted ls tok.



(** ** Relations between the phrases of the array *)

(** Equality of token types, by their values. *)
Definition tokenTypeEqb (a b : TokenType) : bool :=
  tokenTypeValue a =? tokenTypeValue b.

(** Membership of a pair of token types in a list of pairs. *)
Definition pairIn (ps : list (TokenType * TokenType)) (a b : TokenType)
    : bool :=
  existsb (fun p => tokenTypeEqb (fst p) a && tokenTypeEqb (snd p) b) ps.

(** The phrase [q] is the phrase [p], a space, and more. *)
Definition extendsPhrase (p q : string) : bool :=
  String.prefix (String.append p " ") q.

(** The pairs of token types that share a phrase, the first of the array
    first. *)
Definition sharedPhrasePairs : list (TokenType * TokenType) :=
  [(TT_HASA, TT_HASAN); (TT_UPPIN, TT_NERFIN)].

(** The pairs of token types of which the second has the phrase of the
    first, followed by further words. *)
Definition extensionPairs : list (TokenType * TokenType) :=
  [(TT_ITZ, TT_ITZA); (TT_ITZ, TT_RNOOB); (TT_AN, TT_ANYR);
   (TT_WILE, TT_TIL); (TT_KTHX, TT_IMOUTTAYR)].

(** The pairs of token types of which the second has a phrase that starts
    with the phrase of the first and goes on within the same word. *)
Definition wordPrefixPairs : list (TokenType * TokenType) :=
  [(TT_SUMOF, TT_SMOOSH); (TT_GIMMEH, TT_BOTHOF); (TT_HOWIZ, TT_IFUSAYSO)].

(** The token types whose phrase is three words, and two words. *)
Definition threeWordTypes : list TokenType :=
  [TT_ISNOWA; TT_TIL; TT_OHAIIM].

Definition twoWordTypes : list TokenType :=
  [TT_ITZA; TT_RNOOB; TT_R; TT_ANYR; TT_EITHEROF; TT_WONOF; TT_MEBBE;
   TT_OMGWTF; TT_IMINYR; TT_WILE; TT_IMOUTTAYR; TT_IMLIEK].

(** * Properties *)

(** ** The keyword table *)

Lemma tokenTypes_nth (t : TokenType) :
  nth_error tokenTypes (tokenTypeValue t) = Some t.
Proof. destruct t; reflexivity. Qed.

Lemma tokenTypeValue_nth (i : nat) (t : TokenType) :
  nth_error tokenTypes i = Some t -> tokenTypeValue t = i.
Proof.
  unfold tokenTypes.
  do 75 (destruct i as [|i]; [intros [= <-]; reflexivity|]).
  simpl. destruct i; discriminate.
Qed.

Lemma tokenTypeValue_inj (a b : TokenType) :
  tokenTypeValue a = tokenTypeValue b -> a = b.
Proof.
  intros E. pose proof (tokenTypes_nth a) as Ha.
  rewrite E, tokenTypes_nth in Ha. now injection Ha.
Qed.

Lemma keywords_nth (t : TokenType) :
  nth_error keywords (tokenTypeValue t) = Some (keywordOf t).
Proof. destruct t; reflexivity. Qed.

Lemma isKeywordType_imageless (t : TokenType) :
  isKeywordType t = false <-> In t imagelessTypes.
Proof.
  split.
  - destruct t; simpl; intros E; try discriminate E; tauto.
  - simpl. intros H.
    repeat (destruct H as [<- | H]; [reflexivity|]). contradiction.
Qed.

Lemma keywordOf_empty (t : TokenType) :
  keywordOf t = "" <-> isKeywordType t = false.
Proof.
  destruct t; simpl; split; intros E;
    solve [reflexivity | discriminate E].
Qed.

(** C10: the array [keywords] has one entry for each value of [TokenType],
    at the index that is the value, so it can be indexed by token type; the
    entry is the empty string for the five literal types, for [TT_EOF] and
    [TT_NEWLINE] and for the sentinel [TT_ENDOFTOKENS], and for no other
    type. *)
Theorem keywords_one_entry_per_token_type :
  length keywords = length tokenTypes /\
  length keywords = S (tokenTypeValue TT_ENDOFTOKENS) /\
  (forall t, nth_error keywords (tokenTypeValue t) = Some (keywordOf t)) /\
  (forall a b, tokenTypeValue a = tokenTypeValue b -> a = b) /\
  (forall i, i < length keywords -> exists t, tokenTypeValue t = i) /\
  (forall t, keywordOf t = "" <-> In t imagelessTypes).
Proof.
  split; [reflexivity|]. split; [reflexivity|].
  split; [exact keywords_nth|]. split; [exact tokenTypeValue_inj|].
  split.
  - intros i Hi.
    assert (Hlen : i < length tokenTypes) by exact Hi.
    apply nth_error_Some in Hlen.
    destruct (nth_error tokenTypes i) as [t|] eqn:E; [|contradiction].
    exists t. now apply tokenTypeValue_nth.
  - intros t. rewrite keywordOf_empty. apply isKeywordType_imageless.
Qed.

(** C4: the table gives one phrase to more than one token type: [TT_UPPIN]
    and [TT_NERFIN], the increment and the decrement of a loop variable,
    share a phrase, and so do the two variable declarations [TT_HASA] and
    [TT_HASAN]. *)
Theorem keywords_shared_phrases :
  (TT_UPPIN <> TT_NERFIN /\
   keywordOf TT_UPPIN = keywordOf TT_NERFIN /\
   In (TT_UPPIN, keywordOf TT_UPPIN) keywordTable /\
   In (TT_NERFIN, keywordOf TT_UPPIN) keywordTable) /\
  (TT_HASA <> TT_HASAN /\
   keywordOf TT_HASA = keywordOf TT_HASAN /\
   In (TT_HASA, keywordOf TT_HASA) keywordTable /\
   In (TT_HASAN, keywordOf TT_HASA) keywordTable).
Proof.
  assert (Hin : forall t, isKeywordType t = true ->
                          In (t, keywordOf t) keywordTable).
  { intros t Ht. unfold keywordTable.
    apply (in_map (fun t => (t, keywordOf t))), filter_In. split; [|exact Ht].
    eapply nth_error_In, tokenTypes_nth. }
  split; (split; [discriminate|]); (split; [reflexivity|]); split.
  - now apply Hin.
  - change (keywordOf TT_UPPIN) with (keywordOf TT_NERFIN). now apply Hin.
  - now apply Hin.
  - change (keywordOf TT_HASA) with (keywordOf TT_HASAN). now apply Hin.
Qed.

(** C3, as the table has it: the phrase of the inherited object declaration
    [TT_ITZLIEKA] is one word, the phrase of the assignment [TT_R] is two
    words, and the phrase of the function scope delimiter [TT_IZ] is one
    word. *)
Theorem keyword_phrase_word_counts :
  (keywordOf TT_ITZLIEKA = "छापों" /\
   wordCount (keywordOf TT_ITZLIEKA) = 1) /\
  (keywordOf TT_R = "अब है" /\ wordCount (keywordOf TT_R) = 2) /\
  (keywordOf TT_IZ = "बुलाओ" /\ wordCount (keywordOf TT_IZ) = 1).
Proof.
  repeat split; vm_compute; reflexivity.
Qed.

(** C3 does not hold as stated: the phrases of [TT_ITZLIEKA] and [TT_IZ]
    are single words, not three and two. *)
Lemma keyword_phrase_word_counts_not_3_2_2 :
  ~ (wordCount (keywordOf TT_ITZLIEKA) = 3 /\
     wordCount (keywordOf TT_R) = 2 /\
     wordCount (keywordOf TT_IZ) = 2).
Proof.
  intros [H3 [_ H2]].
  assert (E1 : wordCount (keywordOf TT_ITZLIEKA) = 1) by reflexivity.
  rewrite E1 in H3. discriminate H3.
Qed.

(** C9 does not hold as stated: the phrase of [TT_BANG] is the exclamation
    mark, which is no Devanagari word, and the phrase of [TT_OHAIIM] is
    three words of Latin capitals. *)
Lemma keyword_phrase_not_devanagari :
  (keywordOf TT_BANG = "!" /\
   keywordOf TT_BANG <> "" /\
   devanagariPhrase (keywordOf TT_BANG) = false) /\
  (keywordOf TT_OHAIIM = "O HAI IM" /\
   keywordOf TT_OHAIIM <> "" /\
   devanagariPhrase (keywordOf TT_OHAIIM) = false).
Proof.
  split; (split; [reflexivity|]); (split; [discriminate|]);
    vm_compute; reflexivity.
Qed.

(** C9, as the table has it: every phrase that is not empty is one or more
    words, neighbours separated by one space.  The words are written in
    Devanagari, but for ASCII punctuation: the phrase of [TT_BANG] is the
    exclamation mark, that of [TT_ORLY] ends in a question mark and that of
    [TT_APOSTROPHEZ] starts with an apostrophe.  The script of the phrases
    of [TT_OHAIIM] and [TT_IMLIEK] is left aside. *)
Theorem keyword_phrases_words_and_script (t : TokenType) :
  keywordOf t <> "" ->
  words (keywordOf t) <> [] /\
  String.concat " " (words (keywordOf t)) = keywordOf t /\
  match t with
  | TT_BANG => keywordOf t = "!"
  | TT_ORLY =>
      keywordOf t = String.append "क्या" "?" /\
      devanagariWord "क्या" = true
  | TT_APOSTROPHEZ =>
      keywordOf t = String.append "'" "का" /\
      devanagariWord "का" = true
  | TT_OHAIIM | TT_IMLIEK => True
  | _ => devanagariPhrase (keywordOf t) = true
  end.
Proof.
  intros Hne.
  destruct t; try (exfalso; apply Hne; reflexivity);
    (split; [vm_compute; discriminate|]);
    (split; [vm_compute; reflexivity|]);
    try exact I; try (vm_compute; reflexivity);
    split; vm_compute; reflexivity.
Qed.

(** The phrase of [TT_HAI] is a single Devanagari word. *)
Lemma keyword_phrases_words_and_script_HAI :
  words (keywordOf TT_HAI) <> [] /\
  String.concat " " (words (keywordOf TT_HAI)) = keywordOf TT_HAI /\
  devanagariPhrase (keywordOf TT_HAI) = true.
Proof.
  apply (keyword_phrases_words_and_script TT_HAI). discriminate.
Defined.

(** ** The lexeme-window matcher *)

Section Matcher.

Variable ls : LexemeList.
Variable start : nat.
Variable phrase : string.

Lemma append_length (a b : string) :
  String.length (String.append a b) = String.length a + String.length b.
Proof.
  induction a as [|c a IH]; simpl; [reflexivity|]. now rewrite IH.
Qed.

Lemma spell_cons (x y : Lexeme) (r : LexemeList) :
  spell (x :: y :: r)
  = String.append (lex_image x) (String.append " " (spell (y :: r))).
Proof. reflexivity. Qed.

(** A longer window spells a longer text: every lexeme added brings its
    separating space along. *)
Lemma spell_firstn_longer (xs : LexemeList) :
  forall n m, 0 < n -> n < m -> m <= length xs ->
    String.length (spell (firstn n xs)) < String.length (spell (firstn m xs)).
Proof.
  induction xs as [|x r IH]; intros n m Hn Hnm Hm; simpl in Hm; [lia|].
  destruct n as [|n]; [lia|]. destruct m as [|m]; [lia|].
  destruct r as [|y r]; [simpl in Hm; lia|].
  destruct m as [|m]; [lia|].
  destruct n as [|n].
  - change (firstn 1 (x :: y :: r)) with [x].
    change (firstn (S (S m)) (x :: y :: r)) with (x :: y :: firstn m r).
    rewrite spell_cons, !append_length. unfold spell at 1. simpl map.
    simpl String.concat. simpl (String.length " "). lia.
  - change (firstn (S (S n)) (x :: y :: r)) with (x :: firstn (S n) (y :: r)).
    change (firstn (S (S m)) (x :: y :: r)) with (x :: firstn (S m) (y :: r)).
    specialize (IH (S n) (S m) ltac:(lia) ltac:(lia) ltac:(simpl in *; lia)).
    change (firstn (S n) (y :: r)) with (y :: firstn n r) in *.
    change (firstn (S m) (y :: r)) with (y :: firstn m r) in *.
    rewrite !spell_cons, !append_length. lia.
Qed.

(** At most one window size spells a given phrase. *)
Lemma Spells_unique (n m : nat) :
  Spells ls start phrase n -> Spells ls start phrase m -> n = m.
Proof.
  intros (Hn & Hnl & En) (Hm & Hml & Em).
  assert (Hlen : length (skipn start ls) = length ls - start)
    by apply length_skipn.
  destruct (Nat.lt_trichotomy n m) as [Hlt | [Heq | Hgt]]; [|exact Heq|].
  - pose proof (spell_firstn_longer (skipn start ls) n m Hn Hlt
                  ltac:(lia)) as H.
    unfold window in En, Em. rewrite En, Em in H. lia.
  - pose proof (spell_firstn_longer (skipn start ls) m n Hm Hgt
                  ltac:(lia)) as H.
    unfold window in En, Em. rewrite En, Em in H. lia.
Qed.

(** The search returns the least of the sizes it tries that spells the
    phrase, and zero when none of them does. *)
Lemma searchWindow_found (count : nat) :
  forall n, 0 < n ->
    let r := searchWindow ls start phrase n count in
    (r = 0 /\ forall k, n <= k < n + count ->
                        spell (window ls start k) <> phrase)
    \/ (n <= r < n + count /\ spell (window ls start r) = phrase).
Proof.
  induction count as [|count IH]; intros n Hn; simpl.
  - left. split; [reflexivity|]. intros k Hk. lia.
  - destruct (String.eqb_spec (spell (window ls start n)) phrase) as [E | NE].
    + right. split; [lia | exact E].
    + destruct (IH (S n) ltac:(lia)) as [[E0 Hnone] | [Hr Er]].
      * left. split; [exact E0|]. intros k Hk.
        destruct (Nat.eq_dec k n) as [-> | Hkn]; [exact NE|].
        apply Hnone. lia.
      * right. split; [lia | exact Er].
Qed.

Lemma acceptLexemes_Spells :
  0 < acceptLexemes ls start phrase ->
  Spells ls start phrase (acceptLexemes ls start phrase).
Proof.
  unfold acceptLexemes. intros Hpos.
  destruct (searchWindow_found (length ls - start) 1 ltac:(lia))
    as [[E0 _] | [Hr Er]]; [lia|].
  repeat split; [lia | lia | exact Er].
Qed.

Lemma Spells_acceptLexemes (n : nat) :
  Spells ls start phrase n -> acceptLexemes ls start phrase = n.
Proof.
  intros Hs. pose proof Hs as (Hn & Hnl & En).
  assert (Hpos : 0 < acceptLexemes ls start phrase).
  { unfold acceptLexemes.
    destruct (searchWindow_found (length ls - start) 1 ltac:(lia))
      as [[_ Hnone] | [Hr _]]; [|lia].
    exfalso. apply (Hnone n); [lia | exact En]. }
  exact (Spells_unique _ _ (acceptLexemes_Spells Hpos) Hs).
Qed.

End Matcher.

(** C2: [acceptLexemes] returns the number of consecutive lexemes from the
    starting index on whose texts, joined by single spaces, are the phrase:
    it returns [n] for the one [n] that does so, and zero when there is no
    such [n], a window that would run past the end of the list being no
    match. *)
Theorem acceptLexemes_contract (ls : LexemeList) (start : nat)
    (phrase : string) :
  (forall n, Spells ls start phrase n <->
             acceptLexemes ls start phrase = n /\ 0 < n) /\
  ((forall n, ~ Spells ls start phrase n) <->
   acceptLexemes ls start phrase = 0) /\
  (forall n, 0 < n -> length ls < start + n ->
             acceptLexemes ls start phrase <> n).
Proof.
  split; [|split].
  - intros n. split.
    + intros Hs. split; [now apply Spells_acceptLexemes | apply Hs].
    + intros [E Hn]. subst n. now apply acceptLexemes_Spells.
  - split.
    + intros Hnone.
      destruct (Nat.eq_dec (acceptLexemes ls start phrase) 0) as [E | NE];
        [exact E | exfalso].
      apply (Hnone (acceptLexemes ls start phrase)), acceptLexemes_Spells. lia.
    + intros E n Hs. pose proof Hs as (Hn & _).
      apply Spells_acceptLexemes in Hs. lia.
  - intros n Hn Hpast E.
    destruct (acceptLexemes_Spells ls start phrase) as (_ & Hle & _); lia.
Qed.

(** ** The keyword recogniser *)

Section Recogniser.

Variable ls : LexemeList.
Variable start : nat.

(** What a pass over a table leaves: the best entry it was given, when no
    entry of the table matches more lexemes; otherwise the first entry of
    the table among those matching the most lexemes. *)
Lemma scanKeywords_best (table : list KeywordEntry) :
  forall best,
    let r := scanKeywords table ls start best in
    (r = best /\
     forall e, In e table -> matchedBy ls start e <= bestLength best)
    \/ (exists i e,
          nth_error table i = Some e /\
          r = Some (e, matchedBy ls start e) /\
          bestLength best < matchedBy ls start e /\
          (forall e', In e' table ->
                      matchedBy ls start e' <= matchedBy ls start e) /\
          (forall j e', j < i -> nth_error table j = Some e' ->
                        matchedBy ls start e' < matchedBy ls start e)).
Proof.
  induction table as [|e rest IH]; intros best; simpl.
  - left. split; [reflexivity | intros e []].
  - destruct (Nat.ltb_spec (bestLength best) (matchedBy ls start e))
      as [Hlt | Hge].
    + destruct (IH (Some (e, matchedBy ls start e)))
        as [[Er Hrest] | (i & e2 & Hi & Er & Hbest & Hall & Hbefore)];
        simpl in *; right.
      * exists 0, e. repeat split; try assumption; try reflexivity.
        -- intros e' [<- | Hin]; [lia | now apply Hrest].
        -- intros j e' Hj. lia.
      * exists (S i), e2. repeat split; try assumption.
        -- lia.
        -- intros e' [<- | Hin]; [lia | now apply Hall].
        -- intros [|j] e' Hj Hnth; simpl in Hnth.
           ++ injection Hnth as <-. exact Hbest.
           ++ apply (Hbefore j); [lia | exact Hnth].
    + destruct (IH best)
        as [[Er Hrest] | (i & e2 & Hi & Er & Hbest & Hall & Hbefore)].
      * left. split; [exact Er|].
        intros e' [<- | Hin]; [exact Hge | now apply Hrest].
      * right. exists (S i), e2. repeat split; try assumption.
        -- intros e' [<- | Hin]; [lia | now apply Hall].
        -- intros [|j] e' Hj Hnth; simpl in Hnth.
           ++ injection Hnth as <-. lia.
           ++ apply (Hbefore j); [lia | exact Hnth].
Qed.

(** A phrase that matches some lexemes matches them within the list. *)
Lemma matched_in_list (phrase : string) :
  0 < acceptLexemes ls start phrase ->
  start + acceptLexemes ls start phrase <= length ls.
Proof.
  intros Hpos.
  now destruct (acceptLexemes_Spells ls start phrase Hpos) as (_ & H & _).
Qed.

(** What [isKeyword] returns, in terms of the pass over the table. *)
Lemma isKeyword_scan :
  match isKeyword ls start with
  | Some (tok, n) =>
      scanKeywords keywordTable ls start None
      = Some ((type tok, image tok), n) /\
      data tok = None /\
      exists first, nth_error ls start = Some first /\
                    fname tok = lex_fname first /\ line tok = lex_line first
  | None => scanKeywords keywordTable ls start None = None
  end.
Proof.
  unfold isKeyword.
  destruct (scanKeywords_best keywordTable None)
    as [[Er _] | (i & [kind phrase] & _ & Er & Hpos & _)];
    cbv zeta in Er; rewrite Er; [reflexivity|].
  unfold matchedBy in *. cbn [snd bestLength] in *.
  pose proof (matched_in_list phrase Hpos) as Hin.
  destruct (nth_error ls start) as [first|] eqn:E.
  - cbn [type image data fname line].
    split; [reflexivity|]. split; [reflexivity|].
    exists first. repeat split.
  - apply nth_error_None in E. lia.
Qed.

End Recogniser.

(** C1: [isKeyword] returns the entry of the keyword table whose phrase
    matches the most lexemes at the starting index; among the entries that
    match that many lexemes it returns the first of the table; when no entry
    matches it returns no keyword. *)
Theorem isKeyword_longest_match_first_in_table (ls : LexemeList)
    (start : nat) :
  match isKeyword ls start with
  | Some (tok, n) =>
      exists i,
        nth_error keywordTable i = Some (type tok, image tok) /\
        acceptLexemes ls start (image tok) = n /\
        0 < n /\
        (forall e, In e keywordTable ->
                   acceptLexemes ls start (snd e) <= n) /\
        (forall j e, j < i -> nth_error keywordTable j = Some e ->
                     acceptLexemes ls start (snd e) < n)
  | None =>
      forall e, In e keywordTable -> acceptLexemes ls start (snd e) = 0
  end.
Proof.
  pose proof (isKeyword_scan ls start) as Hscan.
  destruct (scanKeywords_best ls start keywordTable None)
    as [[Er Hnone] | (i & e & Hi & Er & Hpos & Hall & Hbefore)];
    cbv zeta in Er; unfold matchedBy in *; cbn [bestLength] in *.
  - destruct (isKeyword ls start) as [[tok n]|].
    + destruct Hscan as [Hscan _]. congruence.
    + intros e Hin. specialize (Hnone e Hin). lia.
  - destruct (isKeyword ls start) as [[tok n]|].
    + destruct Hscan as [Hscan _]. rewrite Hscan in Er.
      injection Er as <- ->. cbn [snd] in *.
      exists i. repeat split; assumption.
    + congruence.
Qed.

(** ** The token factory *)

Lemma keywordTable_entry (e : KeywordEntry) :
  In e keywordTable ->
  isKeywordType (fst e) = true /\ snd e = keywordOf (fst e).
Proof.
  unfold keywordTable. intros H.
  apply in_map_iff in H as (t & <- & Ht).
  apply filter_In in Ht as [_ Ht]. split; [exact Ht | reflexivity].
Qed.

(** A token that was created has the type of the shape, and the text, file
    and line asked for. *)
Lemma createToken_inr (shape : LiteralShape) (text file : string)
    (at_line : N) (tok : Token) :
  createToken shape text file at_line = inr tok ->
  type tok = shapeType shape /\ image tok = text /\ fname tok = file /\
  line tok = at_line.
Proof.
  unfold createToken. destruct shape.
  - destruct (decodeInteger text) as [v|]; [|discriminate].
    destruct (toLongLong v) as [i|]; [|discriminate].
    intros [= <-]. repeat split.
  - destruct (decodeFloat text) as [f|]; [|discriminate].
    intros [= <-]. repeat split.
  - intros [= <-]. repeat split.
  - intros [= <-]. repeat split.
Qed.


(** ** The token stream builder *)

Section Builder.

Variable ls : LexemeList.

(** A keyword that was recognised took one lexeme or more, all within the
    list; its token is of a keyword type and holds no payload. *)
Lemma isKeyword_Some (cursor : nat) (tok : Token) (n : nat) :
  isKeyword ls cursor = Some (tok, n) ->
  0 < n /\ cursor + n <= length ls /\
  isKeywordType (type tok) = true /\ data tok = None.
Proof.
  intros E. pose proof (isKeyword_scan ls cursor) as H.
  rewrite E in H. destruct H as (Hscan & Hdata & _).
  destruct (scanKeywords_best ls cursor keywordTable None)
    as [[Er _] | (i & e & Hi & Er & Hpos & _)];
    cbv zeta in Er; rewrite Hscan in Er; [discriminate Er|].
  injection Er as He Hn. subst e. unfold matchedBy in *.
  cbn [snd bestLength] in *.
  apply nth_error_In, keywordTable_entry in Hi as [Hty _].
  pose proof (matched_in_list ls cursor (image tok) Hpos) as Hin.
  rewrite <- Hn in Hpos, Hin.
  repeat split; assumption.
Qed.




(** No token made of the lexemes is the end-of-file token. *)
Lemma Emitted_token (tok : Token) : Emitted ls tok -> isEOF tok = false.
Proof.
  intros [cursor n Hk | lx _ _ -> | lx shape _ _ Hct].
  - apply isKeyword_Some in Hk as (_ & _ & Hty & _).
    unfold isEOF. destruct (type tok); try reflexivity; discriminate Hty.
  - reflexivity.
  - apply createToken_inr in Hct as (Htype & _).
    unfold isEOF. rewrite Htype. now destruct shape.
Qed.

Lemma run_Done (n : nat) (toks : list Token) :
  run n ls (Done toks) = Done toks.
Proof. induction n as [|n IH]; [reflexivity | exact IH]. Qed.

Lemma run_Failed (n : nat) (e : TokenizeError) :
  run n ls (Failed e) = Failed e.
Proof. induction n as [|n IH]; [reflexivity | exact IH]. Qed.


(** A transition that keeps scanning has moved the cursor forward, within
    the list, and has added one token. *)
Lemma step_Scanning (cursor : nat) (toks : list Token) (cursor' : nat)
    (toks' : list Token) :
  step ls (Scanning cursor toks) = Scanning cursor' toks' ->
  cursor < cursor' <= length ls /\
  exists tok, toks' = toks ++ [tok] /\ Emitted ls tok.
Proof.
  unfold step.
  destruct (nth_error ls cursor) as [lx|] eqn:Hnth; [|discriminate].
  assert (Hlt : cursor < length ls) by (apply nth_error_Some; congruence).
  assert (Hin : In lx ls) by (eapply nth_error_In; exact Hnth).
  cbv zeta.
  destruct (isKeyword ls cursor) as [[tok n]|] eqn:Hk.
  - intros [= <- <-].
    destruct (isKeyword_Some _ _ _ Hk) as (Hn & Hle & _).
    split; [lia|]. exists tok. split; [reflexivity|].
    exact (emitted_keyword ls tok cursor n Hk).
  - destruct (isNewline (lex_image lx)) eqn:Hnl.
    + intros [= <- <-]. split; [lia|].
      exists (newlineToken lx). split; [reflexivity|].
      exact (emitted_newline ls _ lx Hin Hnl eq_refl).
    + destruct (literalShape (lex_image lx)) as [shape|] eqn:Hshape;
        [|discriminate].
      destruct (createToken shape (lex_image lx) (lex_fname lx) (lex_line lx))
        as [e|tok] eqn:Hct; [discriminate|].
      intros [= <- <-]. split; [lia|].
      exists tok. split; [reflexivity|].
      exact (emitted_literal ls tok lx shape Hin Hshape Hct).
Qed.

(** The transition that ends the scan adds the end-of-file token, and is
    taken past the last lexeme only. *)
Lemma step_Done (cursor : nat) (toks out : list Token) :
  step ls (Scanning cursor toks) = Done out ->
  out = toks ++ [eofToken] /\ length ls <= cursor.
Proof.
  unfold step.
  destruct (nth_error ls cursor) as [lx|] eqn:Hnth.
  - cbv zeta. destruct (isKeyword ls cursor) as [[tok n]|]; [discriminate|].
    destruct (isNewline (lex_image lx)); [discriminate|].
    destruct (literalShape (lex_image lx)) as [shape|]; [|discriminate].
    destruct (createToken shape (lex_image lx) (lex_fname lx) (lex_line lx));
      discriminate.
  - intros [= <-]. split; [reflexivity | now apply nth_error_None].
Qed.

(** While the machine scans, every transition has moved the cursor. *)
Lemma run_Scanning (n : nat) :
  forall cursor toks cursor' toks',
    cursor <= length ls ->
    run n ls (Scanning cursor toks) = Scanning cursor' toks' ->
    cursor + n <= cursor' <= length ls /\
    exists more, toks' = toks ++ more /\ Forall (Emitted ls) more.
Proof.
  induction n as [|n IH]; intros cursor toks cursor' toks' Hle Hrun.
  - injection Hrun as <- <-. split; [lia|].
    exists []. split; [now rewrite app_nil_r | constructor].
  - cbn [run] in Hrun.
    destruct (step ls (Scanning cursor toks)) as [c2 t2 | out | e] eqn:Hs.
    + apply step_Scanning in Hs as (Hc2 & tok & -> & Htok).
      apply IH in Hrun as (Hc' & more & -> & Hmore); [|lia].
      split; [lia|]. exists (tok :: more).
      split; [now rewrite <- app_assoc | now constructor].
    + rewrite run_Done in Hrun. discriminate Hrun.
    + rewrite run_Failed in Hrun. discriminate Hrun.
Qed.

(** A finished scan holds emitted tokens and then the end-of-file token. *)
Lemma run_Done_tokens (n : nat) :
  forall cursor toks out,
    run n ls (Scanning cursor toks) = Done out ->
    exists more, out = toks ++ more ++ [eofToken] /\
                 Forall (Emitted ls) more.
Proof.
  induction n as [|n IH]; intros cursor toks out Hrun; [discriminate Hrun|].
  cbn [run] in Hrun.
  destruct (step ls (Scanning cursor toks)) as [c2 t2 | out2 | e] eqn:Hs.
  - apply step_Scanning in Hs as (_ & tok & -> & Htok).
    apply IH in Hrun as (more & -> & Hmore).
    exists (tok :: more). split; [now rewrite <- app_assoc | now constructor].
  - rewrite run_Done in Hrun. injection Hrun as <-.
    apply step_Done in Hs as [-> _].
    exists []. split; [reflexivity | constructor].
  - rewrite run_Failed in Hrun. discriminate Hrun.
Qed.

(** One transition per lexeme and one more end every scan. *)
Lemma tokenizeLexemes_terminates :
  (exists toks, tokenizeLexemes ls = Done toks)
  \/ (exists e, tokenizeLexemes ls = Failed e).
Proof.
  unfold tokenizeLexemes.
  destruct (run (S (length ls)) ls (Scanning 0 [])) as [c t | out | e] eqn:Hrun.
  - apply run_Scanning in Hrun as [Hc _]; lia.
  - left. now exists out.
  - right. now exists e.
Qed.

Lemma tokenizeLexemes_Done (toks : list Token) :
  tokenizeLexemes ls = Done toks ->
  exists pre, toks = pre ++ [eofToken] /\ Forall (Emitted ls) pre.
Proof.
  unfold tokenizeLexemes. intros Hrun.
  apply run_Done_tokens in Hrun as (more & -> & Hmore).
  now exists more.
Qed.




End Builder.

(** C5: when [tokenizeLexemes] succeeds, the token list is not empty, its
    last token is the end-of-file token, and that token occurs once in the
    list; the empty lexeme list yields the end-of-file token alone.  Every
    run of [tokenizeLexemes] ends, with a token list or with a failure. *)
Theorem tokenizeLexemes_ends_with_one_eof :
  (forall ls toks,
     tokenizeLexemes ls = Done toks ->
     toks <> [] /\
     (exists pre, toks = pre ++ [eofToken] /\
                  forallb (fun t => negb (isEOF t)) pre = true) /\
     length (filter isEOF toks) = 1) /\
  tokenizeLexemes [] = Done [eofToken] /\
  (forall ls, (exists toks, tokenizeLexemes ls = Done toks)
              \/ (exists e, tokenizeLexemes ls = Failed e)).
Proof.
  split; [|split; [reflexivity | exact tokenizeLexemes_terminates]].
  intros ls toks Hdone.
  destruct (tokenizeLexemes_Done ls toks Hdone) as (pre & -> & Hpre).
  assert (Hnone : forallb (fun t => negb (isEOF t)) pre = true).
  { apply forallb_forall. intros t Ht.
    rewrite Forall_forall in Hpre.
    now rewrite (Emitted_token ls t (Hpre t Ht)). }
  split; [|split].
  - intros E. apply app_eq_nil in E as [_ E]. discriminate E.
  - exists pre. split; [reflexivity | exact Hnone].
  - rewrite filter_app, length_app.
    assert (Hfilter : filter isEOF pre = []).
    { clear Hdone Hpre. induction pre as [|t pre IH]; [reflexivity|].
      cbn in Hnone |- *. apply andb_prop in Hnone as [Ht Hrest].
      apply negb_true_iff in Ht. rewrite Ht. now apply IH. }
    rewrite Hfilter. reflexivity.
Qed.

(** C5 at a list of an integer and an identifier. *)
Lemma tokenizeLexemes_ends_with_one_eof_example :
  let ls := [mkLexeme "42" "main.lol" 1; mkLexeme "abc" "main.lol" 1] in
  let toks := [mkToken TT_INTEGER (Some (TD_i (mkLongLong 42 eq_refl)))
                 "42" "main.lol" 1;
               mkToken TT_IDENTIFIER None "abc" "main.lol" 1; eofToken] in
  tokenizeLexemes ls = Done toks /\
  toks <> [] /\
  (exists pre, toks = pre ++ [eofToken] /\
               forallb (fun t => negb (isEOF t)) pre = true) /\
  length (filter isEOF toks) = 1.
Proof.
  intros ls toks.
  assert (H : tokenizeLexemes ls = Done toks) by (vm_compute; reflexivity).
  split; [exact H|].
  exact (proj1 tokenizeLexemes_ends_with_one_eof ls toks H).
Defined.




(** C8: the lexeme list of the one lexeme that is the phrase of [TT_HAI]
    is tokenized into two tokens, a [TT_HAI] token and the end-of-file
    token. *)
Theorem tokenizeLexemes_hai (file : string) (at_line : N) :
  keywordOf TT_HAI = "नमस्ते" /\
  tokenizeLexemes [mkLexeme "नमस्ते" file at_line]
  = Done [mkToken TT_HAI None "नमस्ते" file at_line; eofToken].
Proof.
  split; [reflexivity|].
  assert (Hkey : isKeyword [mkLexeme "नमस्ते" file at_line] 0
                 = Some (mkToken TT_HAI None "नमस्ते" file at_line, 1))
    by (vm_compute; reflexivity).
  unfold tokenizeLexemes. cbn [length run].
  unfold step at 2. cbn [nth_error]. cbv zeta. rewrite Hkey.
  unfold step. cbn [nth_error Nat.add app]. reflexivity.
Qed.

(** ** Further properties of the recogniser and the builder *)

Section WholeArray.

Variable ls : LexemeList.
Variable start : nat.

(** Entries that match nothing can be left out of a pass. *)
Lemma scanKeywords_filter (keep : KeywordEntry -> bool)
    (table : list KeywordEntry) :
  (forall e, In e table -> keep e = false -> matchedBy ls start e = 0) ->
  forall best,
    scanKeywords (filter keep table) ls start best
    = scanKeywords table ls start best.
Proof.
  induction table as [|e rest IH]; intros Hdrop best; [reflexivity|].
  cbn [filter scanKeywords].
  assert (Hrest : forall e', In e' rest -> keep e' = false ->
                             matchedBy ls start e' = 0)
    by (intros e' Hin; apply Hdrop; now right).
  destruct (keep e) eqn:Hkeep.
  - cbn [scanKeywords]. now apply IH.
  - rewrite (Hdrop e (or_introl eq_refl) Hkeep).
    cbv zeta. rewrite (proj2 (Nat.ltb_ge _ 0) (Nat.le_0_l _)). now apply IH.
Qed.

(** The empty phrase matches no lexeme that has a text. *)
Lemma acceptLexemes_empty_phrase :
  (forall lx, nth_error ls start = Some lx -> lex_image lx <> "") ->
  acceptLexemes ls start "" = 0.
Proof.
  intros Htext.
  destruct (Nat.eq_dec (acceptLexemes ls start "") 0) as [E | NE];
    [exact E | exfalso].
  destruct (acceptLexemes_Spells ls start "" ltac:(lia)) as (Hn & Hle & Hs).
  destruct (acceptLexemes ls start "") as [|n]; [lia|].
  unfold window in Hs. pose proof (hd_error_skipn start ls) as Hhd.
  destruct (skipn start ls) as [|lx rest].
  - assert (Hnil : length (skipn start ls) = length ls - start)
      by apply length_skipn.
    symmetry in Hhd. apply nth_error_None in Hhd. lia.
  - cbn in Hhd. symmetry in Hhd. apply Htext in Hhd. apply Hhd.
    cbn [firstn] in Hs. unfold spell in Hs. cbn [map] in Hs.
    destruct (map lex_image (firstn n rest)); cbn in Hs; [exact Hs|].
    destruct (lex_image lx); [reflexivity | discriminate Hs].
Qed.

(** Scanning all of [keywords], the empty entries of the literal types, of
    [TT_EOF], [TT_NEWLINE] and [TT_ENDOFTOKENS] included, finds what scanning
    the keyword table finds, when the lexeme at [start] has a text. *)
Lemma scanKeywords_whole_array :
  (forall lx, nth_error ls start = Some lx -> lex_image lx <> "") ->
  scanKeywords (map (fun t => (t, keywordOf t)) tokenTypes) ls start None
  = scanKeywords keywordTable ls start None.
Proof.
  intros Htext.
  rewrite <- (scanKeywords_filter (fun e => isKeywordType (fst e))).
  - rewrite filter_map_swap. unfold keywordTable. reflexivity.
  - intros [t p] Hin Hdrop. apply in_map_iff in Hin as (t' & [= <- <-] & _).
    cbn [fst] in Hdrop. apply keywordOf_empty in Hdrop.
    unfold matchedBy. cbn [snd]. rewrite Hdrop.
    now apply acceptLexemes_empty_phrase.
Qed.

(** Of two types that share a phrase the recogniser only ever returns the
    first of the table: it never returns [TT_HASAN] or [TT_NERFIN]. *)
Lemma isKeyword_never_second_of_shared_phrase (tok : Token) (n : nat) :
  isKeyword ls start = Some (tok, n) ->
  type tok <> TT_HASAN /\ type tok <> TT_NERFIN.
Proof.
  intros E. pose proof (isKeyword_scan ls start) as H.
  rewrite E in H. destruct H as (Hscan & _).
  destruct (scanKeywords_best ls start keywordTable None)
    as [[Er _] | (i & e & Hi & Er & _ & _ & Hbefore)];
    cbv zeta in Er; rewrite Hscan in Er; [discriminate Er|].
  injection Er as He _. subst e.
  assert (Hshadow : forall second first j,
            nth_error keywordTable j = Some (first, keywordOf second) ->
            nth_error keywordTable i = Some (second, keywordOf second) ->
            j < i -> type tok <> second).
  { intros second first j Hj Hi' Hlt Hty.
    rewrite Hi' in Hi. injection Hi as _ Himg.
    specialize (Hbefore j _ Hlt Hj). unfold matchedBy in Hbefore.
    cbn [snd] in Hbefore. rewrite Himg in Hbefore. lia. }
  assert (Hentry : image tok = keywordOf (type tok)).
  { now apply nth_error_In, keywordTable_entry in Hi as [_ Hi]. }
  split; intros Hty; rewrite Hentry, Hty in Hi.
  - assert (Hidx : i = 11).
    { revert Hi. clear.
      do 67 (destruct i as [|i]; [try discriminate; reflexivity|]).
      destruct i; discriminate. }
    subst i.
    exact (Hshadow TT_HASAN TT_HASA 10 eq_refl Hi (Nat.lt_succ_diag_r 10) Hty).
  - assert (Hidx : i = 53).
    { revert Hi. clear.
      do 67 (destruct i as [|i]; [try discriminate; reflexivity|]).
      destruct i; discriminate. }
    subst i.
    exact (Hshadow TT_NERFIN TT_UPPIN 52 eq_refl Hi (Nat.lt_succ_diag_r 52) Hty).
Qed.

End WholeArray.

(** The longest match wins over the order of the table: [TT_ITZ] comes
    before [TT_RNOOB] in the table and matches the first lexeme below, and
    the two lexemes are nevertheless recognised as [TT_RNOOB]. *)
Lemma tokenizeLexemes_longest_match_example (file : string) (at_line : N) :
  keywordOf TT_ITZ = "है" /\
  keywordOf TT_RNOOB = "है खाली" /\
  tokenTypeValue TT_ITZ < tokenTypeValue TT_RNOOB /\
  tokenizeLexemes [mkLexeme "है" file at_line;
                   mkLexeme "खाली" file (at_line + 1)]
  = Done [mkToken TT_RNOOB None "है खाली" file at_line; eofToken].
Proof.
  split; [reflexivity|]. split; [reflexivity|].
  split; [vm_compute; lia|].
  assert (Hkey : isKeyword [mkLexeme "है" file at_line;
                            mkLexeme "खाली" file (at_line + 1)] 0
                 = Some (mkToken TT_RNOOB None "है खाली" file at_line, 2))
    by (vm_compute; reflexivity).
  unfold tokenizeLexemes. cbn [length run].
  unfold step at 3. cbn [nth_error]. cbv zeta. rewrite Hkey.
  unfold step at 2. cbn [nth_error Nat.add app].
  reflexivity.
Qed.

(** ** Relations between the phrases of the array *)

Lemma tokenTypes_all (t : TokenType) : In t tokenTypes.
Proof. exact (nth_error_In _ _ (tokenTypes_nth t)). Qed.

(** A check that holds of every pair of the enumeration holds of every pair
    of token types. *)
Lemma forall_tokenType_pairs (check : TokenType -> TokenType -> bool) :
  forallb (fun a => forallb (check a) tokenTypes) tokenTypes = true ->
  forall a b, check a b = true.
Proof.
  intros Hall a b. rewrite forallb_forall in Hall.
  specialize (Hall a (tokenTypes_all a)). rewrite forallb_forall in Hall.
  exact (Hall b (tokenTypes_all b)).
Qed.

Lemma tokenTypeEqb_eq (a b : TokenType) : tokenTypeEqb a b = true <-> a = b.
Proof.
  unfold tokenTypeEqb. rewrite Nat.eqb_eq. split.
  - apply tokenTypeValue_inj.
  - now intros ->.
Qed.

Lemma pairIn_In (ps : list (TokenType * TokenType)) (a b : TokenType) :
  pairIn ps a b = true <-> In (a, b) ps.
Proof.
  unfold pairIn. rewrite existsb_exists. split.
  - intros ([x y] & Hin & H). apply andb_prop in H as [Hx Hy].
    apply tokenTypeEqb_eq in Hx, Hy. cbn in Hx, Hy. now subst.
  - intros Hin. exists (a, b). split; [exact Hin|].
    cbn. now rewrite !(proj2 (tokenTypeEqb_eq _ _) eq_refl).
Qed.

Lemma nonEmpty_true (s : string) : nonEmpty s = true <-> s <> "".
Proof.
  destruct s as [|c s]; cbn; split.
  - discriminate.
  - intros H. now contradiction H.
  - discriminate.
  - reflexivity.
Qed.

(** X1: two different token types have the same phrase, one that is not
    empty, only when they are [TT_HASA] and [TT_HASAN] or [TT_UPPIN] and
    [TT_NERFIN]. *)
Theorem keyword_phrase_shared_only_by (a b : TokenType) :
  a <> b -> keywordOf a <> "" -> keywordOf a = keywordOf b ->
  In (a, b) sharedPhrasePairs \/ In (b, a) sharedPhrasePairs.
Proof.
  intros Hab Hne Heq.
  pose (check := fun a b =>
          implb (negb (tokenTypeEqb a b) && nonEmpty (keywordOf a)
                 && String.eqb (keywordOf a) (keywordOf b))
                (pairIn sharedPhrasePairs a b
                 || pairIn sharedPhrasePairs b a)).
  assert (Hall : check a b = true)
    by (apply forall_tokenType_pairs; vm_compute; reflexivity).
  unfold check in Hall.
  assert (Hpre : negb (tokenTypeEqb a b) && nonEmpty (keywordOf a)
                 && String.eqb (keywordOf a) (keywordOf b) = true).
  { rewrite !andb_true_iff, negb_true_iff. repeat split.
    - destruct (tokenTypeEqb a b) eqn:E; [|reflexivity].
      apply tokenTypeEqb_eq in E. contradiction.
    - now apply nonEmpty_true.
    - now apply String.eqb_eq. }
  rewrite Hpre in Hall. cbn [implb] in Hall.
  apply orb_prop in Hall as [H | H]; apply pairIn_In in H; tauto.
Qed.

(** X1 at the two variable declarations. *)
Lemma keyword_phrase_shared_only_by_example :
  In (TT_HASA, TT_HASAN) sharedPhrasePairs
  \/ In (TT_HASAN, TT_HASA) sharedPhrasePairs.
Proof.
  apply (keyword_phrase_shared_only_by TT_HASA TT_HASAN);
    [discriminate | discriminate | reflexivity].
Defined.

(** X2: the phrase of one token type is the phrase of another followed by
    further words for five pairs of types and no other.  The longer phrase
    stands before the shorter one in the array, so that a reader who goes
    through the array in order meets it first, for all of them but one:
    [TT_RNOOB] stands after [TT_ITZ], whose phrase it extends. *)
Theorem keyword_phrase_extensions_order :
  (forall a b, keywordOf a <> "" ->
               (extendsPhrase (keywordOf a) (keywordOf b) = true <->
                In (a, b) extensionPairs)) /\
  (forall a b, In (a, b) extensionPairs ->
               tokenTypeValue b < tokenTypeValue a
               \/ (a = TT_ITZ /\ b = TT_RNOOB)) /\
  tokenTypeValue TT_ITZ < tokenTypeValue TT_RNOOB.
Proof.
  split; [|split].
  - intros a b Hne.
    pose (check := fun a b =>
            implb (nonEmpty (keywordOf a))
                  (Bool.eqb (extendsPhrase (keywordOf a) (keywordOf b))
                            (pairIn extensionPairs a b))).
    assert (Hall : check a b = true)
      by (apply forall_tokenType_pairs; vm_compute; reflexivity).
    unfold check in Hall.
    rewrite (proj2 (nonEmpty_true _) Hne) in Hall. cbn [implb] in Hall.
    apply Bool.eqb_prop in Hall. rewrite Hall. apply pairIn_In.
  - intros a b Hin. cbn in Hin.
    repeat (destruct Hin as [[= <- <-] | Hin];
            [first [left; vm_compute; lia | right; split; reflexivity]|]).
    contradiction.
  - vm_compute. lia.
Qed.

(** X3: the phrase of a keyword type is one, two or three words; it is three
    words for [TT_ISNOWA], [TT_TIL] and [TT_OHAIIM], and two words for the
    twelve types of [twoWordTypes]. *)
Theorem keyword_phrase_one_to_three_words (t : TokenType) :
  isKeywordType t = true ->
  1 <= wordCount (keywordOf t) <= 3 /\
  (wordCount (keywordOf t) = 3 <-> In t threeWordTypes) /\
  (wordCount (keywordOf t) = 2 <-> In t twoWordTypes).
Proof.
  intros Hkey.
  pose (check := fun t =>
          implb (isKeywordType t)
                ((1 <=? wordCount (keywordOf t))
                 && (wordCount (keywordOf t) <=? 3)
                 && Bool.eqb (wordCount (keywordOf t) =? 3)
                             (existsb (tokenTypeEqb t) threeWordTypes)
                 && Bool.eqb (wordCount (keywordOf t) =? 2)
                             (existsb (tokenTypeEqb t) twoWordTypes))).
  assert (Hall : forallb check tokenTypes = true)
    by (vm_compute; reflexivity).
  rewrite forallb_forall in Hall. specialize (Hall t (tokenTypes_all t)).
  unfold check in Hall. rewrite Hkey in Hall. cbn [implb] in Hall.
  rewrite !andb_true_iff in Hall.
  destruct Hall as [[[Hlo Hhi] H3] H2].
  apply Nat.leb_le in Hlo, Hhi. apply Bool.eqb_prop in H3, H2.
  assert (Hmem : forall l, existsb (tokenTypeEqb t) l = true <-> In t l).
  { intros l. rewrite existsb_exists. split.
    - intros (x & Hin & E). apply tokenTypeEqb_eq in E. now subst.
    - intros Hin. exists t. split; [exact Hin | now apply tokenTypeEqb_eq]. }
  split; [lia|]. split.
  - rewrite <- Hmem, <- H3. apply iff_sym, Nat.eqb_eq.
  - rewrite <- Hmem, <- H2. apply iff_sym, Nat.eqb_eq.
Qed.

(** X3 at [TT_TIL], a phrase of three words. *)
Lemma keyword_phrase_one_to_three_words_example :
  1 <= wordCount (keywordOf TT_TIL) <= 3 /\
  (wordCount (keywordOf TT_TIL) = 3 <-> In TT_TIL threeWordTypes) /\
  (wordCount (keywordOf TT_TIL) = 2 <-> In TT_TIL twoWordTypes).
Proof.
  apply (keyword_phrase_one_to_three_words TT_TIL). reflexivity.
Defined.

(** X4: no word of a phrase of the array starts with a digit, a minus sign,
    a double quote or an underscore, and the only words that start with a
    letter of C's [isalpha] are those of [TT_OHAIIM] and [TT_IMLIEK]. *)
Theorem keyword_word_first_character (t : TokenType) (w : string)
    (c : ascii) (rest : string) :
  In w (words (keywordOf t)) -> w = String c rest ->
  isDigit c = false /\ c <> "-"%char /\ c <> quoteChar /\ c <> "_"%char /\
  (isAlpha c = true -> t = TT_OHAIIM \/ t = TT_IMLIEK).
Proof.
  intros Hin Hw.
  pose (check := fun t w =>
          match w with
          | String c _ =>
              negb (isDigit c) && negb (Ascii.eqb c "-")
              && negb (Ascii.eqb c quoteChar) && negb (Ascii.eqb c "_")
              && implb (isAlpha c)
                       (tokenTypeEqb t TT_OHAIIM || tokenTypeEqb t TT_IMLIEK)
          | EmptyString => true
          end).
  assert (Hall : forallb (fun t => forallb (check t) (words (keywordOf t)))
                         tokenTypes = true)
    by (vm_compute; reflexivity).
  rewrite forallb_forall in Hall. specialize (Hall t (tokenTypes_all t)).
  rewrite forallb_forall in Hall. specialize (Hall w Hin).
  unfold check in Hall. rewrite Hw in Hall.
  rewrite !andb_true_iff, !negb_true_iff in Hall.
  destruct Hall as [[[[Hd Hm] Hq] Hu] Ha].
  split; [exact Hd|].
  split; [now apply Ascii.eqb_neq|].
  split; [now apply Ascii.eqb_neq|].
  split; [now apply Ascii.eqb_neq|].
  intros Halpha. rewrite Halpha in Ha. cbn [implb] in Ha.
  apply orb_prop in Ha as [H | H]; apply tokenTypeEqb_eq in H; tauto.
Qed.

(** X4 at the second word of the phrase of [TT_OHAIIM]. *)
Lemma keyword_word_first_character_example :
  isDigit "H" = false /\ "H"%char <> "-"%char /\ "H"%char <> quoteChar /\
  "H"%char <> "_"%char /\
  (isAlpha "H" = true -> TT_OHAIIM = TT_OHAIIM \/ TT_OHAIIM = TT_IMLIEK).
Proof.
  apply (keyword_word_first_character TT_OHAIIM "HAI" "H" "AI");
    [vm_compute; tauto | reflexivity].
Defined.

(** X5: the phrase of one token type starts with the different phrase of
    another only for the five pairs of [extensionPairs], where it goes on
    with a new word, and for three pairs where it goes on within the same
    word: [TT_SUMOF] and [TT_SMOOSH], [TT_GIMMEH] and [TT_BOTHOF],
    [TT_HOWIZ] and [TT_IFUSAYSO].  A match of a phrase therefore has to
    compare a lexeme to its end. *)
Theorem keyword_phrase_prefixes (a b : TokenType) :
  keywordOf a <> "" -> keywordOf a <> keywordOf b ->
  (String.prefix (keywordOf a) (keywordOf b) = true <->
   In (a, b) extensionPairs \/ In (a, b) wordPrefixPairs).
Proof.
  intros Hne Hdiff.
  pose (check := fun a b =>
          implb (nonEmpty (keywordOf a)
                 && negb (String.eqb (keywordOf a) (keywordOf b)))
                (Bool.eqb (String.prefix (keywordOf a) (keywordOf b))
                          (pairIn extensionPairs a b
                           || pairIn wordPrefixPairs a b))).
  assert (Hall : check a b = true)
    by (apply forall_tokenType_pairs; vm_compute; reflexivity).
  unfold check in Hall.
  rewrite (proj2 (nonEmpty_true _) Hne) in Hall.
  rewrite (proj2 (String.eqb_neq _ _) Hdiff) in Hall.
  cbn [implb negb andb] in Hall.
  apply Bool.eqb_prop in Hall. rewrite Hall, orb_true_iff.
  now rewrite !pairIn_In.
Qed.

(** X5 at [TT_HOWIZ], whose phrase starts that of [TT_IFUSAYSO]. *)
Lemma keyword_phrase_prefixes_example :
  String.prefix (keywordOf TT_HOWIZ) (keywordOf TT_IFUSAYSO) = true <->
  In (TT_HOWIZ, TT_IFUSAYSO) extensionPairs
  \/ In (TT_HOWIZ, TT_IFUSAYSO) wordPrefixPairs.
Proof.
  apply (keyword_phrase_prefixes TT_HOWIZ TT_IFUSAYSO); discriminate.
Defined.
